(** * Accessors, enumerations and declarations of the iOS excerpt

    Three independent leaves are embedded here, each in a module of its own:

    - [UnimplementedView]: the member functions of
      [ABI46_0_0UnimplementedViewProps.cpp];
    - [EXDevice]: the enumeration declared in [ABI46_0_0EXDevice.h];
    - [EXJavaScriptFunction]: the initialiser declared in
      [EXJavaScriptFunction.h]. *)

From Stdlib Require Import String List ZArith Bool Lia.
Import ListNotations.

(** ** Member functions as state transformers

    A C++ member function runs on the object it is called on and either
    returns a value, leaving the object in some state, or leaves by an
    exception.  [Throws] is never produced by the two accessors below; it is
    part of the type so that "the call succeeds" is a statement and not a
    convention. *)

Module Method.

Inductive outcome (S A : Type) : Type :=
| Returns (a : A) (s : S)
| Throws.

Arguments Returns {S A} a s.
Arguments Throws {S A}.

Definition method (S A : Type) : Type := S -> outcome S A.

Definition ret {S A : Type} (a : A) : method S A :=
  fun s => Returns a s.

Definition bind {S A B : Type} (m : method S A) (k : A -> method S B)
  : method S B :=
  fun s =>
    match m s with
    | Returns a s' => k a s'
    | Throws => Throws
    end.

(** Reading and replacing the whole object; field access is built on
    these in the modules that know the fields. *)
Definition this {S : Type} : method S S :=
  fun s => Returns s s.

Definition assign {S : Type} (s' : S) : method S unit :=
  fun _ => Returns tt s'.

Definition value_of {S A : Type} (o : outcome S A) : option A :=
  match o with
  | Returns a _ => Some a
  | Throws => None
  end.

Definition state_of {S A : Type} (o : outcome S A) : option S :=
  match o with
  | Returns _ s => Some s
  | Throws => None
  end.

Definition succeeds {S A : Type} (o : outcome S A) : bool :=
  match o with
  | Returns _ _ => true
  | Throws => false
  end.

Declare Scope method_scope.
Delimit Scope method_scope with method.

Notation "x <- c1 ;; c2" := (bind c1 (fun x => c2))
  (at level 61, c1 at next level, right associativity) : method_scope.
Notation "c1 ;; c2" := (bind c1 (fun _ => c2))
  (at level 61, right associativity) : method_scope.

End Method.

(** ** [UnimplementedViewProps] *)

Module UnimplementedView.

Import Method.
Local Open Scope method_scope.

Section Props.

(** [ComponentName] is declared in a header that the translation unit
    only includes; the accessors copy values of that type and do
    nothing else with them. *)
Variable ComponentName : Type.

(** Everything the class declaration puts in the object besides
    [componentName_] (the declaration is in the included header, so it
    is left open here; [unit] gives an object with the one field). *)
Variable Other : Type.

Record UnimplementedViewProps : Type := mkProps {
  componentName_ : ComponentName;
  other_ : Other
}.

(** Field read [componentName_] and field write [componentName_ = v]. *)
Definition load_componentName_
  : method UnimplementedViewProps ComponentName :=
  self <- this ;; ret (componentName_ self).

Definition store_componentName_ (v : ComponentName)
  : method UnimplementedViewProps unit :=
  self <- this ;;
  assign {| componentName_ := v; other_ := other_ self |}.

(** [void UnimplementedViewProps::setComponentName(ComponentName componentName) {
       componentName_ = componentName;
     }] *)
Definition setComponentName (componentName : ComponentName)
  : method UnimplementedViewProps unit :=
  store_componentName_ componentName.

(** [ComponentName UnimplementedViewProps::getComponentName() const {
       return componentName_;
     }] *)
Definition getComponentName
  : method UnimplementedViewProps ComponentName :=
  v <- load_componentName_ ;; ret v.

(** The value [componentName_] has before any assignment.  The member's
    initialiser is part of the class declaration in the included header, so
    the value is a parameter here. *)
Variable default_name : ComponentName.

(** Modelled from the spec: the construction of the object, decided by the
    class declaration in the included header.  The props are "constructed
    by the UI framework" with [componentName_] at its default-initialised
    value; the rest of the object is whatever the framework puts there. *)
Definition construct (o : Other) : UnimplementedViewProps :=
  {| componentName_ := default_name; other_ := o |}.

End Props.

Arguments componentName_ {ComponentName Other} _.
Arguments other_ {ComponentName Other} _.
Arguments mkProps {ComponentName Other} _ _.
Arguments setComponentName {ComponentName Other} componentName _.
Arguments getComponentName {ComponentName Other} _.
Arguments construct {ComponentName Other} default_name o.

End UnimplementedView.


(** ** [ABI46_0_0EXDeviceType] *)

Module EXDevice.

Local Open Scope Z_scope.

(** [NS_ENUM(NSInteger, ...)]: the enumeration's underlying type is the
    signed machine word of the platform, 64 bits wide on the targets this
    header is built for. *)
Definition NSInteger : Type := Z.
Definition NSIntegerMin : NSInteger := - 2 ^ 63.
Definition NSIntegerMax : NSInteger := 2 ^ 63 - 1.

Definition in_NSInteger (v : Z) : bool :=
  (NSIntegerMin <=? v) && (v <=? NSIntegerMax).

(** [typedef NS_ENUM(NSInteger, ABI46_0_0EXDeviceType) { ... };]

    The constructors are the enumerators the declaration names.  They are
    not all a variable of the type can hold: see [holds] below. *)
Inductive ABI46_0_0EXDeviceType : Set :=
| ABI46_0_0EXDeviceTypeUnknown
| ABI46_0_0EXDeviceTypePhone
| ABI46_0_0EXDeviceTypeTablet
| ABI46_0_0EXDeviceTypeDesktop
| ABI46_0_0EXDeviceTypeTV.

Definition ABI46_0_0EXDeviceType_eqb (a b : ABI46_0_0EXDeviceType) : bool :=
  match a, b with
  | ABI46_0_0EXDeviceTypeUnknown, ABI46_0_0EXDeviceTypeUnknown
  | ABI46_0_0EXDeviceTypePhone, ABI46_0_0EXDeviceTypePhone
  | ABI46_0_0EXDeviceTypeTablet, ABI46_0_0EXDeviceTypeTablet
  | ABI46_0_0EXDeviceTypeDesktop, ABI46_0_0EXDeviceTypeDesktop
  | ABI46_0_0EXDeviceTypeTV, ABI46_0_0EXDeviceTypeTV => true
  | _, _ => false
  end.

(** The enumerator list of the declaration, in source order, each
    enumerator with its initialiser when it has one.  Only the first one
    is written with [= 0]. *)
Definition enumerator_list : list (ABI46_0_0EXDeviceType * option Z) :=
  [ (ABI46_0_0EXDeviceTypeUnknown, Some 0);
    (ABI46_0_0EXDeviceTypePhone, None);
    (ABI46_0_0EXDeviceTypeTablet, None);
    (ABI46_0_0EXDeviceTypeDesktop, None);
    (ABI46_0_0EXDeviceTypeTV, None) ].

(** The language's rule for enumeration constants: an enumerator with an
    initialiser has that value, one without has the value of the previous
    enumerator plus one, and [next] is what an enumerator without
    initialiser gets at this point of the list (0 at its head). *)
Fixpoint enum_constants {E : Type} (next : Z) (l : list (E * option Z))
  : list (E * Z) :=
  match l with
  | [] => []
  | (e, init) :: l' =>
      let v := match init with Some c => c | None => next end in
      (e, v) :: enum_constants (v + 1) l'
  end.

Definition constants : list (ABI46_0_0EXDeviceType * NSInteger) :=
  enum_constants 0 enumerator_list.

Definition members : list ABI46_0_0EXDeviceType :=
  map fst enumerator_list.

(** The integer an enumerator stands for, looked up in the declaration. *)
Definition rawValue (d : ABI46_0_0EXDeviceType) : option NSInteger :=
  option_map snd
    (find (fun p => ABI46_0_0EXDeviceType_eqb (fst p) d) constants).



End EXDevice.

(** ** [EXJavaScriptFunction] *)

Module EXJavaScriptFunction.

Local Open Scope string_scope.

(** *** The declaration *)

Inductive nullability : Set :=
| nonnull
| nullable
| null_unspecified.

(** The types that occur in the interface. *)
Inductive objc_type : Set :=
| std_shared_ptr (pointee : string)
| object_pointer (class : string) (n : nullability)
| instancetype (n : nullability).

(** An instance-method declaration: the selector's keywords, each with the
    type and the name of its parameter, and the result type. *)
Record method_decl : Set := {
  keywords : list (string * objc_type * string);
  result : objc_type
}.

Definition selector (m : method_decl) : string :=
  String.concat EmptyString (map (fun k => fst (fst k) ++ ":") (keywords m)).

Definition parameter_types (m : method_decl) : list objc_type :=
  map (fun k => snd (fst k)) (keywords m).

(** The one method of the interface: [initWith:runtime:], whose first
    parameter [function] is a [std::shared_ptr<jsi::Function>], whose
    second parameter [runtime] is a [nonnull] pointer to
    [EXJavaScriptRuntime], and whose result is [nonnull instancetype]. *)
Definition initWith_runtime_decl : method_decl :=
  {| keywords :=
       [ ("initWith", std_shared_ptr "jsi::Function", "function");
         ("runtime", object_pointer "EXJavaScriptRuntime" nonnull, "runtime") ];
     result := instancetype nonnull |}.

(** The methods the [@interface ... @end] block declares. *)
Definition interface : list method_decl := [ initWith_runtime_decl ].

(** *** The initialiser *)

Section Wrapper.

(** What a [jsi::Function] and an [EXJavaScriptRuntime] object are is the
    engine's business; the wrapper only holds references to them. *)
Variable Function : Type.
Variable Runtime : Type.

(** A [std::shared_ptr<T>] is empty or shares a [T]; an object pointer
    annotated [nonnull] refers to an object, one that is not so annotated
    may be [nil]. *)
Definition shared_ptr (T : Type) : Type := option T.
Definition nonnull_pointer (T : Type) : Type := T.
Definition nullable_pointer (T : Type) : Type := option T.

(** Modelled from the spec: the instance state of the wrapper, "a handle
    pairing a shared reference to a callable JS value with its owning
    runtime".  The header declares no instance variables. *)
Record EXJavaScriptFunction : Type := {
  function : shared_ptr Function;
  runtime : nonnull_pointer Runtime
}.

(** Modelled from the spec: the body of [initWith:runtime:], which the
    header only declares.  The "constructor takes a shared callable
    handle and a runtime reference" and yields the wrapper that pairs
    them; [nil] would be [None]. *)
Definition initWith (function : shared_ptr Function)
  (runtime : nonnull_pointer Runtime)
  : nullable_pointer EXJavaScriptFunction :=
  Some {| function := function; runtime := runtime |}.

End Wrapper.

Arguments function {Function Runtime} _.
Arguments runtime {Function Runtime} _.
Arguments initWith {Function Runtime} function runtime.

End EXJavaScriptFunction.

(** ** Call sequences on an [UnimplementedViewProps] object

    The class offers its users the two accessors and nothing else, so what a
    user can observe of one object is the replies to a sequence of calls. *)

Module Calls.

Import Method UnimplementedView.
Local Open Scope method_scope.

Section Calls.

Variables ComponentName Other : Type.

Inductive call : Type :=
| call_setComponentName (componentName : ComponentName)
| call_getComponentName.

(** What a call hands back: nothing for the [void] setter, the name for
    the getter. *)
Definition reply : Type := option ComponentName.

Definition perform (c : call)
  : method (UnimplementedViewProps ComponentName Other) reply :=
  match c with
  | call_setComponentName x => setComponentName x ;; ret None
  | call_getComponentName => v <- getComponentName ;; ret (Some v)
  end.

Fixpoint perform_all (cs : list call)
  : method (UnimplementedViewProps ComponentName Other) (list reply) :=
  match cs with
  | [] => ret []
  | c :: cs' => r <- perform c ;; rs <- perform_all cs' ;; ret (r :: rs)
  end.

Definition is_set (c : call) : bool :=
  match c with
  | call_setComponentName _ => true
  | call_getComponentName => false
  end.

(** The names a call sequence writes, in order. *)
Fixpoint written (cs : list call) : list ComponentName :=
  match cs with
  | [] => []
  | call_setComponentName x :: cs' => x :: written cs'
  | call_getComponentName :: cs' => written cs'
  end.

(** The reference the object is compared with: one cell holding a name.  A
    write replaces the content and a read replies with it. *)
Fixpoint cell_replies (content : ComponentName) (cs : list call)
  : list reply :=
  match cs with
  | [] => []
  | call_setComponentName x :: cs' => None :: cell_replies x cs'
  | call_getComponentName :: cs' => Some content :: cell_replies content cs'
  end.

End Calls.

Arguments call_setComponentName {ComponentName} componentName.
Arguments call_getComponentName {ComponentName}.
Arguments perform {ComponentName Other} c _.
Arguments perform_all {ComponentName Other} cs _.
Arguments is_set {ComponentName} c.
Arguments written {ComponentName} cs.
Arguments cell_replies {ComponentName} content cs.

End Calls.

(** * Properties *)

(** ** The method monad *)

Section MethodLaws.

Import Method.
Local Open Scope method_scope.

Context {S A B C : Type}.

Lemma bind_ret_l (a : A) (k : A -> method S B) (s : S) :
  (x <- ret a ;; k x) s = k a s.
Proof. reflexivity. Qed.

Lemma bind_ret_r (m : method S A) (s : S) :
  (x <- m ;; ret x) s = m s.
Proof. unfold bind, ret. now destruct (m s). Qed.

Lemma bind_assoc (m : method S A) (k : A -> method S B)
  (h : B -> method S C) (s : S) :
  (y <- (x <- m ;; k x) ;; h y) s = (x <- m ;; y <- k x ;; h y) s.
Proof. unfold bind. now destruct (m s). Qed.

Lemma bind_returns (m : method S A) (k : A -> method S B) (s s' : S) (a : A) :
  m s = Returns a s' -> (x <- m ;; k x) s = k a s'.
Proof. intros E. unfold bind. now rewrite E. Qed.

Lemma succeeds_returns (o : outcome S A) :
  succeeds o = true <-> exists a s, o = Returns a s.
Proof.
  split.
  - destruct o as [a s|]; [now exists a, s | discriminate].
  - now intros (a & s & ->).
Qed.

End MethodLaws.

(** ** [UnimplementedViewProps] *)

Section UnimplementedViewProps_accessors.

Import Method UnimplementedView.
Local Open Scope method_scope.

Variables ComponentName Other : Type.

Implicit Types s : UnimplementedViewProps ComponentName Other.

(** What the two member functions do to the object, as equations. *)
Lemma setComponentName_eq (x : ComponentName) s :
  setComponentName x s = Returns tt (mkProps x (other_ s)).
Proof. reflexivity. Qed.

Lemma getComponentName_eq s :
  getComponentName s = Returns (componentName_ s) s.
Proof.
  unfold getComponentName. now rewrite bind_ret_r.
Qed.

(** C1: on every props object and for every component name [x], calling
    [setComponentName(x)] and then [getComponentName()] returns [x]. *)
Theorem getComponentName_after_setComponentName s (x : ComponentName) :
  (setComponentName x ;; getComponentName) s
  = Returns x (mkProps x (other_ s)).
Proof.
  rewrite (bind_returns _ _ _ _ _ (setComponentName_eq x s)).
  now rewrite getComponentName_eq.
Qed.

(** C2: [setComponentName(x)] returns, and in the object it leaves behind
    [componentName_] is [x] and every other part of the object is what it
    was before the call. *)
Theorem setComponentName_frame s (x : ComponentName) :
  exists s' : UnimplementedViewProps ComponentName Other,
    setComponentName x s = Returns tt s'
    /\ componentName_ s' = x
    /\ other_ s' = other_ s.
Proof.
  exists (mkProps x (other_ s)). rewrite setComponentName_eq. now repeat split.
Qed.

(** C3: both accessors are total and have no failure branch: on every
    object and for every name the call returns, and [getComponentName],
    being [const], leaves the object as it found it. *)
Theorem accessors_succeed s (x : ComponentName) :
  succeeds (setComponentName x s) = true
  /\ succeeds (getComponentName s) = true
  /\ state_of (getComponentName s) = Some s.
Proof.
  rewrite setComponentName_eq, getComponentName_eq. now repeat split.
Qed.

(** C5: nothing makes a read wait for a write: on an object that was only
    constructed, [getComponentName()] returns, and what it returns is the
    default-initialised value of [componentName_]. *)
Theorem getComponentName_before_set (default_name : ComponentName) (o : Other) :
  getComponentName (construct default_name o)
  = Returns default_name (construct default_name o).
Proof. now rewrite getComponentName_eq. Qed.

(** C10: [setComponentName] overwrites without looking at the stored name,
    so of two calls in a row only the last one shows: setting [x] and then
    [y] returns and leaves the object whose [componentName_] is [y] and
    whose other parts are untouched, which is the object that setting [y]
    alone leaves. *)
Theorem setComponentName_last_write_wins s (x y : ComponentName) :
  (setComponentName x ;; setComponentName y) s
  = Returns tt (mkProps y (other_ s))
  /\ (setComponentName x ;; setComponentName y) s = setComponentName y s.
Proof.
  rewrite (bind_returns _ _ _ _ _ (setComponentName_eq x s)).
  rewrite !setComponentName_eq. now split.
Qed.

End UnimplementedViewProps_accessors.

(** When the class declaration adds nothing besides [componentName_], the
    stored name is the whole object. *)
Lemma single_attribute_props (ComponentName : Type)
  (s s' : UnimplementedView.UnimplementedViewProps ComponentName unit) :
  UnimplementedView.componentName_ s = UnimplementedView.componentName_ s' ->
  s = s'.
Proof.
  destruct s as [n []], s' as [n' []]; simpl. now intros ->.
Qed.

(** A run on a concrete object, with names as strings. *)
Example set_then_get_RCTMap :
  Method.value_of
    (Method.bind (UnimplementedView.setComponentName "RCTMap"%string)
       (fun _ => UnimplementedView.getComponentName)
       (UnimplementedView.construct EmptyString 7%nat))
  = Some "RCTMap"%string.
Proof. reflexivity. Qed.

(** ** [ABI46_0_0EXDeviceType] *)

Section EnumConstants.

Import EXDevice.
Local Open Scope Z_scope.

Context {E : Type}.

(** Numbering gives every enumerator a value and keeps their order. *)
Lemma enum_constants_fst (l : list (E * option Z)) (next : Z) :
  map fst (enum_constants next l) = map fst l.
Proof.
  revert next. induction l as [|[e init] l IH]; intros next; simpl.
  - reflexivity.
  - now rewrite IH.
Qed.

Lemma enum_constants_length (l : list (E * option Z)) (next : Z) :
  length (enum_constants next l) = length l.
Proof.
  rewrite <- (length_map fst), enum_constants_fst. apply length_map.
Qed.

(** Enumerators without initialisers count up by one from [next]. *)
Lemma enum_constants_implicit (es : list E) (next : Z) :
  map snd (enum_constants next (map (fun e => (e, None)) es))
  = map (fun i => next + Z.of_nat i) (seq 0 (length es)).
Proof.
  revert next. induction es as [|e es IH]; intros next; simpl.
  - reflexivity.
  - rewrite IH, <- seq_shift, map_map. f_equal; [lia|].
    apply map_ext. intros i. lia.
Qed.

(** A list that starts with an explicit [c] and goes on without
    initialisers is numbered [c], [c + 1], [c + 2], ... *)
Lemma enum_constants_from (e : E) (es : list E) (c next : Z) :
  map snd (enum_constants next ((e, Some c) :: map (fun e => (e, None)) es))
  = map (fun i => c + Z.of_nat i) (seq 0 (Datatypes.S (length es))).
Proof.
  cbn [enum_constants map snd]. rewrite enum_constants_implicit.
  cbn [seq map]. rewrite <- seq_shift, map_map. f_equal; [lia|].
  apply map_ext. intros i. lia.
Qed.

End EnumConstants.

Section DeviceType.

Import EXDevice.
Local Open Scope Z_scope.

Lemma ABI46_0_0EXDeviceType_eqb_eq (a b : ABI46_0_0EXDeviceType) :
  ABI46_0_0EXDeviceType_eqb a b = true <-> a = b.
Proof. destruct a, b; simpl; split; congruence. Qed.

(** The declaration is one explicit [0] followed by enumerators without
    initialisers. *)
Lemma enumerator_list_shape :
  enumerator_list
  = (ABI46_0_0EXDeviceTypeUnknown, Some 0)
      :: map (fun e => (e, None))
           [ ABI46_0_0EXDeviceTypePhone; ABI46_0_0EXDeviceTypeTablet;
             ABI46_0_0EXDeviceTypeDesktop; ABI46_0_0EXDeviceTypeTV ].
Proof. reflexivity. Qed.






(** C9: the integers behind the enumerators are consecutive from zero:
    Unknown is 0, Phone 1, Tablet 2, Desktop 3 and TV 4. *)
Theorem DeviceType_values_consecutive_from_zero :
  rawValue ABI46_0_0EXDeviceTypeUnknown = Some 0
  /\ rawValue ABI46_0_0EXDeviceTypePhone = Some 1
  /\ rawValue ABI46_0_0EXDeviceTypeTablet = Some 2
  /\ rawValue ABI46_0_0EXDeviceTypeDesktop = Some 3
  /\ rawValue ABI46_0_0EXDeviceTypeTV = Some 4
  /\ map snd constants = map Z.of_nat (seq 0 (length members)).
Proof.
  repeat (split; [reflexivity|]).
  unfold constants, members. rewrite enumerator_list_shape.
  rewrite (enum_constants_from _ _ 0 0). reflexivity.
Qed.

(** Every member has a value, distinct members have distinct values, and
    the values fit the underlying type. *)
Lemma rawValue_defined (d : ABI46_0_0EXDeviceType) :
  exists v, rawValue d = Some v /\ in_NSInteger v = true.
Proof. destruct d; eexists; split; reflexivity. Qed.

Lemma rawValue_inj (a b : ABI46_0_0EXDeviceType) :
  rawValue a = rawValue b -> a = b.
Proof. destruct a, b; simpl; intros H; try reflexivity; discriminate H. Qed.

End DeviceType.

(** ** [EXJavaScriptFunction] *)

Section Initialiser.

Import EXJavaScriptFunction.
Local Open Scope string_scope.

(** C7: the initialiser is declared with exactly two parameters, a
    [std::shared_ptr<jsi::Function>] and a [nonnull] runtime pointer, and
    with a [nonnull] result; and on every such pair it yields a wrapper,
    never [nil], that refers to the two. *)
Theorem initWith_runtime_returns_wrapper :
  In initWith_runtime_decl interface
  /\ selector initWith_runtime_decl = "initWith:runtime:"
  /\ parameter_types initWith_runtime_decl
     = [ std_shared_ptr "jsi::Function";
         object_pointer "EXJavaScriptRuntime" nonnull ]
  /\ result initWith_runtime_decl = instancetype nonnull
  /\ forall (Function Runtime : Type)
       (f : shared_ptr Function) (r : nonnull_pointer Runtime),
       exists w : EXJavaScriptFunction Function Runtime,
         initWith f r = Some w /\ function w = f /\ runtime w = r.
Proof.
  split; [now left|]. repeat (split; [reflexivity|]).
  intros Function Runtime f r. eexists. repeat split.
Qed.

End Initialiser.


(** ** More on the accessors: reading back, and whole call sequences *)

Section UnimplementedViewProps_calls.

Import Method UnimplementedView Calls.
Local Open Scope method_scope.

Variables ComponentName Other : Type.

Implicit Types s : UnimplementedViewProps ComponentName Other.
Implicit Types cs : list (call ComponentName).

(** Writing back the name that was just read leaves the object exactly as
    it was. *)
Theorem setComponentName_of_getComponentName s :
  (v <- getComponentName ;; setComponentName v) s = Returns tt s.
Proof. destruct s as [n o]. reflexivity. Qed.

Lemma last_cons_default {A : Type} (l : list A) (x d : A) :
  last (x :: l) d = last l x.
Proof.
  revert x d. induction l as [|y l IH]; intros x d; [reflexivity|].
  change (last (x :: y :: l) d) with (last (y :: l) d).
  now rewrite (IH y d), (IH y x).
Qed.

Lemma perform_setComponentName (x : ComponentName) s :
  perform (call_setComponentName x) s = Returns None (mkProps x (other_ s)).
Proof. reflexivity. Qed.

Lemma perform_getComponentName s :
  perform call_getComponentName s = Returns (Some (componentName_ s)) s.
Proof. destruct s. reflexivity. Qed.

(** A whole sequence in one equation: the replies are those of the cell,
    the stored name is the last one written (the old one if none was), and
    the rest of the object is untouched. *)
Lemma perform_all_run cs s :
  perform_all cs s
  = Returns (cell_replies (componentName_ s) cs)
      (mkProps (last (written cs) (componentName_ s)) (other_ s)).
Proof.
  revert s. induction cs as [|c cs IH]; intros s.
  - destruct s. reflexivity.
  - destruct c as [x|]; cbn [perform_all written cell_replies].
    + rewrite (bind_returns _ _ _ _ _ (perform_setComponentName x s)).
      rewrite (bind_returns _ _ _ _ _ (IH _)).
      cbn [componentName_ other_]. now rewrite last_cons_default.
    + rewrite (bind_returns _ _ _ _ _ (perform_getComponentName s)).
      now rewrite (bind_returns _ _ _ _ _ (IH _)).
Qed.

(** Whatever the calls and their order, none fails, and every
    [getComponentName] replies with the argument of the latest
    [setComponentName] before it, or with the name the object started
    with when there was none: the object answers as a single cell would. *)
Theorem calls_reply_as_cell cs s :
  value_of (perform_all cs s) = Some (cell_replies (componentName_ s) cs).
Proof. now rewrite perform_all_run. Qed.

(** After any call sequence the object holds the last name written (its
    old name if the sequence wrote none) and is otherwise as before. *)
Theorem calls_final_object cs s :
  exists s' : UnimplementedViewProps ComponentName Other,
    state_of (perform_all cs s) = Some s'
    /\ componentName_ s' = last (written cs) (componentName_ s)
    /\ other_ s' = other_ s.
Proof.
  rewrite perform_all_run. eexists. split; [reflexivity|]. now split.
Qed.

Lemma written_filter_is_set cs :
  written (filter is_set cs) = written cs.
Proof.
  induction cs as [|[x|] cs IH]; cbn; [reflexivity| |assumption].
  now rewrite IH.
Qed.

(** Reads are invisible to the object: striking every [getComponentName]
    from a call sequence leaves the same final object. *)
Theorem reads_do_not_disturb cs s :
  state_of (perform_all (filter is_set cs) s) = state_of (perform_all cs s).
Proof.
  rewrite !perform_all_run. cbn. now rewrite written_filter_is_set.
Qed.

End UnimplementedViewProps_calls.

(** A run: two writes with reads around them. *)
Example calls_on_RCTMap :
  Method.value_of
    (Calls.perform_all
       [ Calls.call_getComponentName;
         Calls.call_setComponentName "RCTMap"%string;
         Calls.call_setComponentName "RCTVideo"%string;
         Calls.call_getComponentName ]
       (UnimplementedView.construct EmptyString tt))
  = Some [ Some EmptyString; None; None; Some "RCTVideo"%string ].
Proof. reflexivity. Qed.

(** ** More on [ABI46_0_0EXDeviceType] *)

Section DeviceType_values.

Import EXDevice.
Local Open Scope Z_scope.

(** No two enumerators stand for the same integer. *)
Theorem DeviceType_values_distinct (a b : ABI46_0_0EXDeviceType) :
  a <> b -> rawValue a <> rawValue b.
Proof.
  intros Hab E. apply Hab. destruct a, b; try reflexivity; discriminate E.
Qed.

Lemma DeviceType_values_distinct_witness :
  ABI46_0_0EXDeviceTypePhone <> ABI46_0_0EXDeviceTypeTablet
  /\ rawValue ABI46_0_0EXDeviceTypePhone <> rawValue ABI46_0_0EXDeviceTypeTablet.
Proof.
  split; [discriminate|].
  apply (DeviceType_values_distinct
           ABI46_0_0EXDeviceTypePhone ABI46_0_0EXDeviceTypeTablet).
  discriminate.
Defined.

End DeviceType_values.
